(** * bcd.distributions: conjugate-prior bookkeeping for Bayesian changepoint
    detection

    A shallow embedding of [src/bcd/distributions.py].

    - numpy 1-D arrays are lists of scalars; elementwise operators follow
      numpy's broadcasting rule (equal lengths, or one operand of length 1,
      otherwise [ValueError]);
    - the scalar arithmetic is an interface ([Scalar]) with two instances:
      IEEE-754 binary64 (what numpy runs on) and the real numbers (what the
      conjugate-update formulas mean);
    - [scipy.stats.t.pdf] is an external function: it is a field of the
      interface [Stats];
    - methods are computations in a state-and-exception monad over the
      instance's attributes, so an attribute assignment is visible as such. *)

From Stdlib Require Import List Bool Arith ZArith Lia.
From Stdlib Require String.
From Stdlib Require Import Reals Lra Psatz.
From Stdlib Require Import Floats.
Import ListNotations.

Set Implicit Arguments.

(** ** Exceptions and the method monad *)

Inductive exn : Type :=
| NotImplementedError
| TypeError
| ValueError.

Inductive outcome (A : Type) : Type :=
| Return (a : A)
| Raise (e : exn).

Arguments Return {A} a.
Arguments Raise {A} e.

(** A method body: it reads and writes the attributes [S] of [self] and
    either returns a value or raises.  The attributes as they are when the
    exception is raised are kept. *)
Definition M (S A : Type) : Type := S -> outcome A * S.

Definition ret {S A} (a : A) : M S A := fun s => (Return a, s).

Definition bind {S A B} (c : M S A) (k : A -> M S B) : M S B :=
  fun s =>
    match c s with
    | (Return a, s') => k a s'
    | (Raise e, s') => (Raise e, s')
    end.

Definition raise {S A} (e : exn) : M S A := fun s => (Raise e, s).

(** [self.attr] *)
Definition getattr {S A} (attr : S -> A) : M S A := fun s => (Return (attr s), s).

(** [self.attr = v], for a setter [upd] of the attribute *)
Definition setattr {S A} (upd : A -> S -> S) (v : A) : M S unit :=
  fun s => (Return tt, upd v s).

(** An expression whose evaluation may raise but touches no attribute. *)
Definition eval {S A} (o : outcome A) : M S A := fun s => (o, s).

Declare Scope method_scope.
Delimit Scope method_scope with method.
Notation "x <- c ;; k" := (bind c (fun x => k))
  (at level 100, c at next level, right associativity) : method_scope.
Notation "c ;; k" := (bind c (fun _ => k))
  (at level 100, right associativity) : method_scope.

(** ** Scalars *)

(** The arithmetic the module uses on array elements.  [one], [two] and
    [half] are the literals [1], [2] and [0.5] of the source. *)
Class Scalar (F : Type) : Type := {
  add : F -> F -> F;
  sub : F -> F -> F;
  mul : F -> F -> F;
  div : F -> F -> F;
  sqrt : F -> F;
  one : F;
  two : F;
  half : F
}.

(** [scipy.stats.t.pdf(x, df, loc, scale)] on scalars: the density at [x] of
    the Student's-t distribution with [df] degrees of freedom, shifted by
    [loc] and scaled by [scale]. *)
Class Stats (F : Type) : Type := {
  stats_t_pdf : F -> F -> F -> F -> F
}.

Declare Scope scalar_scope.
Delimit Scope scalar_scope with scalar.
Infix "+" := add : scalar_scope.
Infix "-" := sub : scalar_scope.
Infix "*" := mul : scalar_scope.
Infix "/" := div : scalar_scope.

(** [x ** 2]: numpy evaluates a power with exponent 2 as a square. *)
Definition sq {F} `{Scalar F} (x : F) : F := (x * x)%scalar.

(** binary64, the element type of the arrays [np.array([kappa])] builds from
    Python floats. *)
#[export] Instance float_Scalar : Scalar float := {
  add := PrimFloat.add;
  sub := PrimFloat.sub;
  mul := PrimFloat.mul;
  div := PrimFloat.div;
  sqrt := PrimFloat.sqrt;
  one := 1%float;
  two := 2%float;
  half := 0.5%float
}.

(** Exact real arithmetic. *)
#[export] Instance R_Scalar : Scalar R := {
  add := Rplus;
  sub := Rminus;
  mul := Rmult;
  div := Rdiv;
  sqrt := R_sqrt.sqrt;
  one := 1%R;
  two := 2%R;
  half := (1 / 2)%R
}.

(** ** Python values passed as [observation] *)

Inductive pyobj (F : Type) : Type :=
| PyFloat (x : F)
| PyNone
| PyStr (s : String.string).

Arguments PyFloat {F} x.
Arguments PyNone {F}.
Arguments PyStr {F} s.

(** ** numpy arrays *)

Definition ndarray (F : Type) : Type := list F.

Fixpoint zip_with {A B C} (f : A -> B -> C) (a : list A) (b : list B) : list C :=
  match a, b with
  | x :: a', y :: b' => f x y :: zip_with f a' b'
  | _, _ => []
  end.

(** An elementwise binary operator on two 1-D arrays: shapes [(n,)] and
    [(n,)] pair up, a shape [(1,)] is stretched, anything else is
    "operands could not be broadcast together". *)
Definition broadcast2 {A B C} (f : A -> B -> C) (a : list A) (b : list B)
  : outcome (list C) :=
  if Nat.eqb (length a) (length b) then Return (zip_with f a b)
  else match a, b with
       | [x], _ => Return (map (f x) b)
       | _, [y] => Return (map (fun x => f x y) a)
       | _, _ => Raise ValueError
       end.

(** An operator between an array and [observation] (on either side): a
    number is applied to every element; [None] and strings have no
    arithmetic with a float array. *)
Definition with_observation {F C} (f : F -> F -> C) (a : ndarray F) (o : pyobj F)
  : outcome (list C) :=
  match o with
  | PyFloat x => Return (map (fun v => f v x) a)
  | PyNone => Raise TypeError
  | PyStr _ => Raise TypeError
  end.

(** [np.concatenate([a, b])] on 1-D arrays *)
Definition concatenate {F} (a b : ndarray F) : ndarray F := a ++ b.

(** [stats.t.pdf(x=observation, df=df, loc=loc, scale=scale)] with array
    parameters: the three parameter arrays are broadcast against each other
    and the scalar density is taken entry by entry. *)
Definition t_pdf {F} `{Stats F} (x : pyobj F) (df loc scale : ndarray F)
  : outcome (ndarray F) :=
  match x with
  | PyFloat x =>
      match broadcast2 pair df loc with
      | Return dl => broadcast2 (fun p s => stats_t_pdf x (fst p) (snd p) s) dl scale
      | Raise e => Raise e
      end
  | PyNone => Raise TypeError
  | PyStr _ => Raise TypeError
  end.

(** ** class Distribution *)

Module Distribution.
Section Distribution.
Context {F Self : Type}.

(** The base class has no attributes of its own; [Self] is whatever the
    instance carries. *)
Definition pdf (observation : pyobj F) : M Self (ndarray F) :=
  raise NotImplementedError.

Definition update (observation : pyobj F) : M Self unit :=
  raise NotImplementedError.

End Distribution.
End Distribution.

(** ** class Gaussian(Distribution) *)

Module Gaussian.
Section Gaussian.
Context {F : Type} `{Scalar F} `{Stats F}.

Record self : Type := {
  kappa0 : ndarray F;
  mu0 : ndarray F;
  alpha0 : ndarray F;
  beta0 : ndarray F;
  kappa : ndarray F;
  mu : ndarray F;
  alpha : ndarray F;
  beta : ndarray F
}.

Definition set_kappa (v : ndarray F) (s : self) : self :=
  {| kappa0 := kappa0 s; mu0 := mu0 s; alpha0 := alpha0 s; beta0 := beta0 s;
     kappa := v; mu := mu s; alpha := alpha s; beta := beta s |}.
Definition set_mu (v : ndarray F) (s : self) : self :=
  {| kappa0 := kappa0 s; mu0 := mu0 s; alpha0 := alpha0 s; beta0 := beta0 s;
     kappa := kappa s; mu := v; alpha := alpha s; beta := beta s |}.
Definition set_alpha (v : ndarray F) (s : self) : self :=
  {| kappa0 := kappa0 s; mu0 := mu0 s; alpha0 := alpha0 s; beta0 := beta0 s;
     kappa := kappa s; mu := mu s; alpha := v; beta := beta s |}.
Definition set_beta (v : ndarray F) (s : self) : self :=
  {| kappa0 := kappa0 s; mu0 := mu0 s; alpha0 := alpha0 s; beta0 := beta0 s;
     kappa := kappa s; mu := mu s; alpha := alpha s; beta := v |}.

(** [Gaussian(kappa, mu, alpha, beta)].  Each prior array is bound to two
    attributes; no method writes into an array in place (every assignment
    binds a freshly built array), so the two names can be kept as two
    values. *)
Definition __init__ (kappa mu alpha beta : F) : outcome self :=
  Return {| kappa0 := [kappa]; mu0 := [mu]; alpha0 := [alpha]; beta0 := [beta];
            kappa := [kappa]; mu := [mu]; alpha := [alpha]; beta := [beta] |}.

Local Open Scope method_scope.
Local Open Scope scalar_scope.

Definition pdf (observation : pyobj F) : M self (ndarray F) :=
  self_beta <- getattr beta ;;
  self_kappa <- getattr kappa ;;
  num <- eval (broadcast2 mul self_beta (map (fun k => k + one) self_kappa)) ;;
  self_alpha <- getattr alpha ;;
  self_kappa <- getattr kappa ;;
  den <- eval (broadcast2 mul self_alpha self_kappa) ;;
  variance <- eval (broadcast2 div num den) ;;
  self_alpha <- getattr alpha ;;
  self_mu <- getattr mu ;;
  eval (t_pdf observation (map (fun a => two * a) self_alpha) self_mu
              (map sqrt variance)).

Definition update (observation : pyobj F) : M self unit :=
  self_kappa <- getattr kappa ;;
  let new_kappa := map (fun k => k + one) self_kappa in
  self_kappa <- getattr kappa ;;
  self_mu <- getattr mu ;;
  km <- eval (broadcast2 mul self_kappa self_mu) ;;
  kmx <- eval (with_observation add km observation) ;;
  self_kappa <- getattr kappa ;;
  new_mu <- eval (broadcast2 div kmx (map (fun k => k + one) self_kappa)) ;;
  self_alpha <- getattr alpha ;;
  let new_alpha := map (fun a => a + half) self_alpha in
  self_beta <- getattr beta ;;
  self_kappa <- getattr kappa ;;
  self_mu <- getattr mu ;;
  dev <- eval (with_observation (fun m x => x - m) self_mu observation) ;;
  kd <- eval (broadcast2 mul self_kappa (map sq dev)) ;;
  self_kappa <- getattr kappa ;;
  let den := map (fun k => k + two) (map (fun k => two * k) self_kappa) in
  q <- eval (broadcast2 div kd den) ;;
  new_beta <- eval (broadcast2 add self_beta q) ;;
  self_kappa0 <- getattr kappa0 ;;
  setattr set_kappa (concatenate self_kappa0 new_kappa) ;;
  self_mu0 <- getattr mu0 ;;
  setattr set_mu (concatenate self_mu0 new_mu) ;;
  self_alpha0 <- getattr alpha0 ;;
  setattr set_alpha (concatenate self_alpha0 new_alpha) ;;
  self_beta0 <- getattr beta0 ;;
  setattr set_beta (concatenate self_beta0 new_beta).

End Gaussian.

Arguments self F : clear implicits.

End Gaussian.

(** ** The caller: a run of method calls on one instance *)

Section Caller.
Context {F : Type} `{Scalar F} `{Stats F}.

Inductive call : Type :=
| CallPdf (observation : pyobj F)
| CallUpdate (observation : pyobj F).

(** The attributes after one call, whether it returned or raised (a caller
    that catches the exception goes on with the same instance). *)
Definition perform (c : call) (s : Gaussian.self F) : Gaussian.self F :=
  match c with
  | CallPdf o => snd (Gaussian.pdf o s)
  | CallUpdate o => snd (Gaussian.update o s)
  end.

Definition after (cs : list call) (s : Gaussian.self F) : Gaussian.self F :=
  fold_left (fun s c => perform c s) cs s.

(** The calls of a run that grow the instance: updates with a number. *)
Definition is_numeric_update (c : call) : bool :=
  match c with
  | CallUpdate (PyFloat _) => true
  | _ => false
  end.

Definition updates_done (cs : list call) : nat :=
  length (filter is_numeric_update cs).

(** [for x in xs: g.update(x)] *)
Fixpoint updates (xs : list F) : M (Gaussian.self F) unit :=
  match xs with
  | [] => ret tt
  | x :: xs' => bind (Gaussian.update (PyFloat x)) (fun _ => updates xs')
  end.

End Caller.

(** ** Vocabulary of the properties *)

Section Vocabulary.
Context {F : Type} `{Scalar F} `{Stats F}.
Import Gaussian.
Local Open Scope scalar_scope.

(** The four current arrays are [n] long. *)
Definition aligned (n : nat) (s : self F) : Prop :=
  length (kappa s) = n /\ length (mu s) = n /\
  length (alpha s) = n /\ length (beta s) = n.

(** The priors are the one-element arrays of [k], [m], [a], [b]. *)
Definition priors (k m a b : F) (s : self F) : Prop :=
  kappa0 s = [k] /\ mu0 s = [m] /\ alpha0 s = [a] /\ beta0 s = [b].

(** What [update] computes for one tracked run length. *)
Definition next_kappa (k : F) : F := k + one.
Definition next_mu (x k m : F) : F := (k * m + x) / (k + one).
Definition next_alpha (a : F) : F := a + half.
Definition next_beta (x k m b : F) : F := b + (k * sq (x - m)) / (two * k + two).

(** What [pdf] computes for one tracked run length. *)
Definition variance_of (k a b : F) : F := b * (k + one) / (a * k).
Definition density (x k m a b : F) : F :=
  stats_t_pdf x (two * a) m (sqrt (variance_of k a b)).

(** The attributes [update] leaves when none of its operators raises. *)
Definition grown (x : F) (s : self F) : self F :=
  {| kappa0 := kappa0 s; mu0 := mu0 s; alpha0 := alpha0 s; beta0 := beta0 s;
     kappa := kappa0 s ++ map (fun k => k + one) (kappa s);
     mu := mu0 s ++
           zip_with div (map (fun v => v + x) (zip_with mul (kappa s) (mu s)))
                        (map (fun k => k + one) (kappa s));
     alpha := alpha0 s ++ map (fun a => a + half) (alpha s);
     beta := beta0 s ++
             zip_with add (beta s)
               (zip_with div
                  (zip_with mul (kappa s) (map sq (map (fun m => x - m) (mu s))))
                  (map (fun k => k + two) (map (fun k => two * k) (kappa s)))) |}.

(** The array [pdf] returns when none of its operators raises. *)
Definition densities (x : F) (s : self F) : ndarray F :=
  zip_with (fun p sc => stats_t_pdf x (fst p) (snd p) sc)
    (zip_with pair (map (fun a => two * a) (alpha s)) (mu s))
    (map sqrt
       (zip_with div (zip_with mul (beta s) (map (fun k => k + one) (kappa s)))
                     (zip_with mul (alpha s) (kappa s)))).

(** The state of an instance built from the priors [k m a b] whose arrays
    are [n] long. *)
Definition tracking (k m a b : F) (n : nat) (s : self F) : Prop :=
  priors k m a b s /\ aligned n s /\
  nth_error (kappa s) 0 = Some k /\ nth_error (mu s) 0 = Some m /\
  nth_error (alpha s) 0 = Some a /\ nth_error (beta s) 0 = Some b.

End Vocabulary.

(** ** Instances the properties are tried on *)

(** The Student's-t density up to its normalising constant (which is positive
    and depends on [df] only). *)
Definition student_kernel (x df loc scale : R) : R :=
  (Rpower (1 + ((x - loc) / scale) * ((x - loc) / scale) / df) (- (df + 1) / 2)
   / scale)%R.

Definition kernel_Stats : Stats R := {| stats_t_pdf := student_kernel |}.

(** [Gaussian(1.0, 0.0, 1.0, 1.0)] *)
Definition unit_priors : Gaussian.self R :=
  {| Gaussian.kappa0 := [1%R]; Gaussian.mu0 := [0%R];
     Gaussian.alpha0 := [1%R]; Gaussian.beta0 := [1%R];
     Gaussian.kappa := [1%R]; Gaussian.mu := [0%R];
     Gaussian.alpha := [1%R]; Gaussian.beta := [1%R] |}.

(** [0 < v] on binary64; it is false of a NaN. *)
Definition positive64 (v : float) : bool := (0 <? v)%float.

(** 2^1023 and 2^-600: finite, positive binary64 numbers. *)
Definition huge : float := 0x1p+1023%float.
Definition tiny : float := 0x1p-600%float.

(** ** Signs of binary64 numbers *)

(** On the specification of a binary64 number: positive (finite or
    [+inf]); non-negative ([+0], positive finite or [+inf]); non-negative or
    NaN. *)
Definition sf_pos (f : spec_float) : bool :=
  match f with
  | S754_finite false _ _ | S754_infinity false => true
  | _ => false
  end.

Definition sf_nonneg (f : spec_float) : bool :=
  match f with
  | S754_zero false | S754_finite false _ _ | S754_infinity false => true
  | _ => false
  end.

Definition sf_nonneg_or_nan (f : spec_float) : bool :=
  match f with
  | S754_nan => true
  | _ => sf_nonneg f
  end.

(** [0 < v or isnan(v)] and [0 <= v] on binary64. *)
Definition positive_or_nan64 (v : float) : bool := positive64 v || is_nan v.
Definition nonnegative64 (v : float) : bool := (0 <=? v)%float.

(** A density to try the binary64 properties on: the Student's-t shape with
    one degree of freedom's exponent, without its normalising constant. *)
Definition kernel64_Stats : Stats float :=
  {| stats_t_pdf := fun x df loc scale =>
       (1 / (scale * (1 + ((x - loc) / scale) * ((x - loc) / scale) / df)))%float |}.

(** ** [Gaussian.update] with a sequence as observation *)

Section Sequences.
Context {F : Type} `{Scalar F}.
Import Gaussian.
Local Open Scope method_scope.
Local Open Scope scalar_scope.


End Sequences.

(** * Properties *)

(** ** Arrays *)

Section Arrays.
Context {A B C : Type}.

Lemma length_zip_with (f : A -> B -> C) (a : list A) (b : list B) :
  length a = length b -> length (zip_with f a b) = length a.
Proof.
  revert b. induction a as [|x a IH]; intros [|y b] E; simpl in *;
    try discriminate; auto.
Qed.

Lemma nth_error_zip_with (f : A -> B -> C) (a : list A) (b : list B) i x y :
  nth_error a i = Some x -> nth_error b i = Some y ->
  nth_error (zip_with f a b) i = Some (f x y).
Proof.
  revert b i. induction a as [|x' a IH]; intros [|y' b] [|i] Ha Hb;
    simpl in *; try discriminate.
  - congruence.
  - now apply IH.
Qed.

Lemma nth_error_zip_with_inv (f : A -> B -> C) (a : list A) (b : list B) i v :
  nth_error (zip_with f a b) i = Some v ->
  exists x y, nth_error a i = Some x /\ nth_error b i = Some y /\ v = f x y.
Proof.
  revert b i. induction a as [|x' a IH]; intros [|y' b] [|i] Hv;
    simpl in *; try discriminate.
  - injection Hv as <-. eauto.
  - now apply IH.
Qed.

Lemma broadcast2_same_length (f : A -> B -> C) (a : list A) (b : list B) :
  length a = length b -> broadcast2 f a b = Return (zip_with f a b).
Proof.
  intros E. unfold broadcast2. now rewrite E, Nat.eqb_refl.
Qed.

Lemma nth_error_defined (l : list A) i :
  i < length l -> exists x, nth_error l i = Some x.
Proof.
  intros Hi. destruct (nth_error l i) eqn:E; eauto.
  apply nth_error_None in E. lia.
Qed.

End Arrays.

(** ** One call on an instance whose four arrays have the same length *)

Section Calls.
Context {F : Type} `{Scalar F} `{Stats F}.
Import Gaussian.
Local Open Scope scalar_scope.

Ltac shape :=
  repeat (rewrite length_map || rewrite length_zip_with); congruence.

Ltac run :=
  unfold bind, getattr, setattr, eval, ret, raise; simpl.

Lemma update_numeric n s x :
  aligned n s -> update (PyFloat x) s = (Return tt, grown x s).
Proof.
  intros (Ek & Em & Ea & Eb).
  unfold update; run.
  rewrite (broadcast2_same_length mul (kappa s) (mu s)) by shape.
  rewrite (broadcast2_same_length div (map _ (zip_with mul _ _))) by shape.
  rewrite (broadcast2_same_length mul (kappa s) (map sq _)) by shape.
  rewrite (broadcast2_same_length div (zip_with mul (kappa s) _)) by shape.
  rewrite (broadcast2_same_length add (beta s)) by shape.
  reflexivity.
Qed.

Lemma pdf_numeric n s x :
  aligned n s -> pdf (PyFloat x) s = (Return (densities x s), s).
Proof.
  intros (Ek & Em & Ea & Eb).
  unfold pdf; run.
  rewrite (broadcast2_same_length mul (beta s)) by shape.
  rewrite (broadcast2_same_length mul (alpha s)) by shape.
  rewrite (broadcast2_same_length div) by shape.
  unfold t_pdf.
  rewrite (broadcast2_same_length pair) by shape.
  rewrite broadcast2_same_length by shape.
  reflexivity.
Qed.

Lemma update_not_numeric n s o :
  aligned n s -> (forall x, o <> PyFloat x) ->
  update o s = (Raise TypeError, s).
Proof.
  intros (Ek & Em & Ea & Eb) Ho.
  unfold update; run.
  rewrite (broadcast2_same_length mul (kappa s) (mu s)) by shape.
  destruct o as [x| |str]; simpl; try reflexivity.
  now elim (Ho x).
Qed.

(** [pdf] has no attribute assignment: whatever it returns or raises, the
    attributes are the ones it started from. *)
Lemma pdf_attributes o s : snd (pdf o s) = s.
Proof.
  unfold pdf; run.
  destruct (broadcast2 mul (beta s) _); simpl; trivial.
  destruct (broadcast2 mul (alpha s) _); simpl; trivial.
  destruct (broadcast2 div _ _); simpl; trivial.
Qed.

Lemma perform_numeric_update n s x :
  aligned n s -> perform (CallUpdate (PyFloat x)) s = grown x s.
Proof. intros A. simpl. now rewrite (update_numeric x A). Qed.

Lemma perform_other n s c :
  aligned n s -> is_numeric_update c = false -> perform c s = s.
Proof.
  intros A Hc. destruct c as [o|o]; simpl.
  - apply pdf_attributes.
  - rewrite (@update_not_numeric n s o A); trivial.
    intros x ->. discriminate.
Qed.

(** A property of the attributes, indexed by the common array length, that
    holds before a run and is kept by every growth step holds after it. *)
Lemma after_invariant (P : nat -> self F -> Prop) :
  (forall n s, P n s -> aligned n s) ->
  (forall n s x, P n s -> P (S n) (grown x s)) ->
  forall cs n s, P n s -> P (n + updates_done cs)%nat (after cs s).
Proof.
  intros Hal Hstep. unfold after, updates_done.
  induction cs as [|c cs IH]; intros n s HP; simpl.
  - now rewrite Nat.add_0_r.
  - destruct (is_numeric_update c) eqn:Ec.
    + destruct c as [o|[x| |str]]; try discriminate.
      rewrite (perform_numeric_update x (Hal _ _ HP)).
      simpl length. rewrite Nat.add_succ_r. apply (IH (S n)). now apply Hstep.
    + rewrite (perform_other c (Hal _ _ HP) Ec). now apply IH.
Qed.

(** [updates] on numbers never raises and is the run of those updates. *)
Lemma updates_run (P : nat -> self F -> Prop) :
  (forall n s, P n s -> aligned n s) ->
  (forall n s x, P n s -> P (S n) (grown x s)) ->
  forall xs n s, P n s ->
    exists s', updates xs s = (Return tt, s') /\ P (n + length xs)%nat s'.
Proof.
  intros Hal Hstep.
  induction xs as [|x xs IH]; intros n s HP; simpl.
  - exists s. rewrite Nat.add_0_r. now split.
  - unfold bind. rewrite (update_numeric x (Hal _ _ HP)).
    destruct (IH (S n) (grown x s) (Hstep _ _ x HP)) as (s' & E & HP').
    exists s'. split; trivial. now rewrite Nat.add_succ_r.
Qed.


(** *** Entries of the grown arrays and of the densities *)

Lemma grown_aligned n s x :
  aligned n s ->
  length (kappa0 s) = 1 -> length (mu0 s) = 1 ->
  length (alpha0 s) = 1 -> length (beta0 s) = 1 ->
  aligned (S n) (grown x s).
Proof.
  intros (Ek & Em & Ea & Eb) Lk Lm La Lb.
  unfold aligned, grown; simpl.
  rewrite !length_app, Lk, Lm, La, Lb.
  repeat split; simpl; f_equal; shape.
Qed.

Lemma grown_kappa s x i k k0 :
  kappa0 s = [k0] -> nth_error (kappa s) i = Some k ->
  nth_error (kappa (grown x s)) (S i) = Some (next_kappa k).
Proof.
  intros E Hk. simpl. rewrite E. simpl.
  rewrite nth_error_map, Hk. reflexivity.
Qed.

Lemma grown_alpha s x i a a0 :
  alpha0 s = [a0] -> nth_error (alpha s) i = Some a ->
  nth_error (alpha (grown x s)) (S i) = Some (next_alpha a).
Proof.
  intros E Ha. simpl. rewrite E. simpl.
  rewrite nth_error_map, Ha. reflexivity.
Qed.

Lemma grown_mu s x i k m m0 :
  mu0 s = [m0] -> nth_error (kappa s) i = Some k -> nth_error (mu s) i = Some m ->
  nth_error (mu (grown x s)) (S i) = Some (next_mu x k m).
Proof.
  intros E Hk Hm. simpl. rewrite E. simpl. unfold next_mu.
  apply nth_error_zip_with.
  - rewrite nth_error_map, (nth_error_zip_with mul _ _ _ Hk Hm). reflexivity.
  - rewrite nth_error_map, Hk. reflexivity.
Qed.

Lemma grown_beta s x i k m b b0 :
  beta0 s = [b0] -> nth_error (kappa s) i = Some k ->
  nth_error (mu s) i = Some m -> nth_error (beta s) i = Some b ->
  nth_error (beta (grown x s)) (S i) = Some (next_beta x k m b).
Proof.
  intros E Hk Hm Hb. simpl. rewrite E. simpl. unfold next_beta.
  apply nth_error_zip_with; trivial.
  apply nth_error_zip_with.
  - apply nth_error_zip_with; trivial.
    rewrite !nth_error_map, Hm. reflexivity.
  - rewrite !nth_error_map, Hk. reflexivity.
Qed.

Lemma densities_length n s x : aligned n s -> length (densities x s) = n.
Proof. intros (Ek & Em & Ea & Eb). unfold densities. shape. Qed.

Lemma densities_entry s x i k m a b :
  nth_error (kappa s) i = Some k -> nth_error (mu s) i = Some m ->
  nth_error (alpha s) i = Some a -> nth_error (beta s) i = Some b ->
  nth_error (densities x s) i = Some (density x k m a b).
Proof.
  intros Hk Hm Ha Hb. unfold densities, density, variance_of.
  apply (nth_error_zip_with
           (fun p sc => stats_t_pdf x (fst p) (snd p) sc) _ _ i
           (x := (two * a, m))).
  - apply nth_error_zip_with; trivial.
    rewrite nth_error_map, Ha. reflexivity.
  - rewrite nth_error_map.
    rewrite (nth_error_zip_with div _ _ i
               (x := b * (k + one)) (y := a * k)); trivial.
    + apply nth_error_zip_with; trivial.
      rewrite nth_error_map, Hk. reflexivity.
    + now apply nth_error_zip_with.
Qed.

(** *** The instance a run of calls leaves *)

Lemma tracking_aligned k m a b n (s : self F) : tracking k m a b n s -> aligned n s.
Proof. now intros (_ & A & _). Qed.

Lemma tracking_constructed k m a b (g : self F) :
  __init__ k m a b = Return g -> tracking k m a b 1 g.
Proof. intros [= <-]. repeat split. Qed.

Lemma tracking_grown k m a b n s x :
  tracking k m a b n s -> tracking k m a b (S n) (grown x s).
Proof.
  intros ((Pk & Pm & Pa & Pb) & A & _).
  split; [now repeat split|]. split.
  - apply grown_aligned; trivial; [rewrite Pk|rewrite Pm|rewrite Pa|rewrite Pb];
      reflexivity.
  - simpl. rewrite Pk, Pm, Pa, Pb. now repeat split.
Qed.

Lemma tracking_after k m a b (g : self F) cs :
  __init__ k m a b = Return g ->
  tracking k m a b (S (updates_done cs)) (after cs g).
Proof.
  intros E.
  apply (after_invariant (tracking k m a b) (@tracking_aligned k m a b)
           (@tracking_grown k m a b) cs 1).
  now apply tracking_constructed.
Qed.

(** *** The update rule *)

(** C1.  In every state a run of calls reaches from a constructed instance,
    [update(x)] with a number [x] returns and rebuilds the four arrays: for
    every index [i] of the old arrays, entry [i+1] of the new ones is
    [kappa[i] + 1], [(kappa[i]*mu[i] + x) / (kappa[i] + 1)],
    [alpha[i] + 0.5] and
    [beta[i] + (kappa[i]*(x - mu[i])**2) / (2*kappa[i] + 2)], and entry 0 is
    the prior given to the constructor. *)
Theorem update_prepends_prior_and_advances
    (k m a b : F) (g : self F) (cs : list call) (x : F)
    (i : nat) (ki mi ai bi : F) :
  __init__ k m a b = Return g ->
  nth_error (kappa (after cs g)) i = Some ki ->
  nth_error (mu (after cs g)) i = Some mi ->
  nth_error (alpha (after cs g)) i = Some ai ->
  nth_error (beta (after cs g)) i = Some bi ->
  exists s',
    update (PyFloat x) (after cs g) = (Return tt, s') /\
    nth_error (kappa s') (S i) = Some (ki + one) /\
    nth_error (mu s') (S i) = Some ((ki * mi + x) / (ki + one)) /\
    nth_error (alpha s') (S i) = Some (ai + half) /\
    nth_error (beta s') (S i)
      = Some (bi + (ki * sq (x - mi)) / (two * ki + two)) /\
    nth_error (kappa s') 0 = Some k /\ nth_error (mu s') 0 = Some m /\
    nth_error (alpha s') 0 = Some a /\ nth_error (beta s') 0 = Some b /\
    length (kappa s') = S (length (kappa (after cs g))).
Proof.
  intros E Hk Hm Ha Hb.
  pose proof (tracking_after cs E) as T.
  pose proof T as ((Pk & Pm & Pa & Pb) & A & _).
  exists (grown x (after cs g)). split; [exact (update_numeric x A)|].
  split; [exact (grown_kappa _ x _ Pk Hk)|].
  split; [exact (grown_mu _ x _ Pm Hk Hm)|].
  split; [exact (grown_alpha _ x _ Pa Ha)|].
  split; [exact (grown_beta _ x _ Pb Hk Hm Hb)|].
  destruct (tracking_grown x T) as (_ & (Lk & _) & Zk & Zm & Za & Zb).
  repeat (split; trivial).
  destruct A as (Ek & _). congruence.
Qed.

(** *** The predictive density *)

(** C2.  On a state whose four arrays are [n] long, [pdf(x)] with a number
    [x] returns an array of length [n], and leaves the state; its entry [i]
    is [stats.t.pdf] at [x] with [df = 2*alpha[i]], [loc = mu[i]] and
    [scale = sqrt(beta[i]*(kappa[i] + 1) / (alpha[i]*kappa[i]))]. *)
Theorem pdf_is_student_t_per_entry
    (n : nat) (s : self F) (x : F) (i : nat) (ki mi ai bi : F) :
  aligned n s ->
  nth_error (kappa s) i = Some ki -> nth_error (mu s) i = Some mi ->
  nth_error (alpha s) i = Some ai -> nth_error (beta s) i = Some bi ->
  exists r,
    pdf (PyFloat x) s = (Return r, s) /\
    length r = n /\
    nth_error r i
      = Some (stats_t_pdf x (two * ai) mi (sqrt (bi * (ki + one) / (ai * ki)))).
Proof.
  intros A Hk Hm Ha Hb.
  exists (densities x s). split; [exact (pdf_numeric x A)|].
  split; [exact (densities_length x A)|].
  exact (densities_entry s x i Hk Hm Ha Hb).
Qed.

(** *** Lengths *)

(** C3.  Construction returns an instance; [t] calls of [update] on it, with
    any numbers, all return; after them each of [kappa], [mu], [alpha],
    [beta] has length [t + 1], and [pdf] returns an array of length [t + 1]
    without changing the instance. *)
Theorem lengths_after_updates (k m a b : F) (xs : list F) :
  exists g s,
    __init__ k m a b = Return g /\
    updates xs g = (Return tt, s) /\
    length (kappa s) = S (length xs) /\ length (mu s) = S (length xs) /\
    length (alpha s) = S (length xs) /\ length (beta s) = S (length xs) /\
    forall x, exists r,
      pdf (PyFloat x) s = (Return r, s) /\ length r = S (length xs).
Proof.
  destruct (__init__ k m a b) as [g|e] eqn:E; [|discriminate].
  destruct (updates_run (tracking k m a b) (@tracking_aligned k m a b)
              (@tracking_grown k m a b) xs 1 g (tracking_constructed E))
    as (s & R & T).
  exists g, s. simpl in T. pose proof (tracking_aligned T) as A.
  destruct A as (Ek & Em & Ea & Eb).
  repeat (split; trivial).
  intros x. exists (densities x s).
  split; [apply (pdf_numeric x (tracking_aligned T))|].
  apply (densities_length x (tracking_aligned T)).
Qed.

(** *** The priors *)

(** C4.  After any run of calls on a constructed instance (updates and
    density evaluations, with any observation), entry 0 of each current
    array is the prior the constructor was given, and [kappa0], [mu0],
    [alpha0], [beta0] are the arrays the constructor stored. *)
Theorem priors_kept (k m a b : F) (cs : list call) :
  exists g,
    __init__ k m a b = Return g /\
    nth_error (kappa (after cs g)) 0 = Some k /\
    nth_error (mu (after cs g)) 0 = Some m /\
    nth_error (alpha (after cs g)) 0 = Some a /\
    nth_error (beta (after cs g)) 0 = Some b /\
    kappa0 (after cs g) = kappa0 g /\ mu0 (after cs g) = mu0 g /\
    alpha0 (after cs g) = alpha0 g /\ beta0 (after cs g) = beta0 g /\
    kappa0 g = [k] /\ mu0 g = [m] /\ alpha0 g = [a] /\ beta0 g = [b].
Proof.
  destruct (__init__ k m a b) as [g|e] eqn:E; [|discriminate].
  exists g. split; trivial.
  destruct (tracking_after cs E) as ((Pk & Pm & Pa & Pb) & _ & Zk & Zm & Za & Zb).
  destruct (tracking_constructed E) as ((Qk & Qm & Qa & Qb) & _).
  repeat split; congruence.
Qed.

(** *** Density evaluation is read-only *)

Lemma after_pdf_calls (os : list (pyobj F)) (s : self F) :
  after (map CallPdf os) s = s.
Proof.
  unfold after. revert s. induction os as [|o os IH]; intros s; simpl; trivial.
  rewrite pdf_attributes. apply IH.
Qed.

(** C6.  [pdf] changes none of the eight attributes, whatever the state and
    the observation and whether it returns or raises; and after any number
    of [pdf] calls, with no [update] between them, a [pdf] call gives what
    it gave before them. *)
Theorem pdf_is_read_only (s : self F) (o : pyobj F) (os : list (pyobj F)) :
  snd (pdf o s) = s /\
  after (map CallPdf os) s = s /\
  pdf o (after (map CallPdf os) s) = pdf o s.
Proof.
  split; [apply pdf_attributes|].
  rewrite after_pdf_calls. now split.
Qed.

(** *** Arguments the methods are not meant for *)


End Calls.

(** ** The base class *)

(** C9.  On the base class, [pdf] and [update] raise [NotImplementedError]
    for every observation, at the call, and return nothing. *)
Theorem base_methods_raise_not_implemented
    (F Self : Type) (observation : pyobj F) (s : Self) :
  Distribution.pdf observation s = (Raise NotImplementedError, s) /\
  Distribution.update observation s = (Raise NotImplementedError, s).
Proof. split; reflexivity. Qed.

(** ** Exact arithmetic *)

Section Exact.
Context {St : Stats R}.
Import Gaussian.
Local Open Scope R_scope.

Lemma Forall_by_index (A : Type) (P : A -> Prop) (l : list A) :
  (forall i v, nth_error l i = Some v -> P v) -> Forall P l.
Proof.
  intros Hl. apply Forall_forall. intros v Hv.
  destruct (In_nth_error _ _ Hv) as (i & Hi). eauto.
Qed.

Lemma Forall_at (A : Type) (P : A -> Prop) (l : list A) i v :
  Forall P l -> nth_error l i = Some v -> P v.
Proof.
  intros Hl Hi. rewrite Forall_forall in Hl.
  apply Hl. eapply nth_error_In; eauto.
Qed.

(** C7.  [Gaussian(1.0, 0.0, 1.0, 1.0)], then [update(0.0)]: the arrays are
    [kappa = [1, 2]], [mu = [0, 0]], [alpha = [1, 1.5]], [beta = [1, 1]].
    Then [pdf(0.0)] returns, in this order, the Student's-t density at 0
    with [(df, loc, scale) = (2, 0, sqrt 2)] and with [(3, 0, 1)]; both are
    positive, the density being positive wherever [df] and [scale] are. *)
Theorem scenario_unit_priors_zero_observation :
  (forall x df loc scale, 0 < df -> 0 < scale -> 0 < stats_t_pdf x df loc scale) ->
  exists g s r,
    __init__ 1 0 1 1 = Return g /\
    update (PyFloat 0) g = (Return tt, s) /\
    kappa s = [1; 2] /\ mu s = [0; 0] /\ alpha s = [1; 3 / 2] /\ beta s = [1; 1] /\
    pdf (PyFloat 0) s = (Return r, s) /\
    r = [stats_t_pdf 0 2 0 (R_sqrt.sqrt 2); stats_t_pdf 0 3 0 1] /\
    Forall (Rlt 0) r.
Proof.
  intros Hpos.
  assert (E2 : 1 * (1 + 1) / (1 * 1) = 2) by field.
  assert (Ek : 1 + 1 = 2) by lra.
  assert (Em : (1 * 0 + 0) / (1 + 1) = 0) by field.
  assert (Ea : 1 + 1 / 2 = 3 / 2) by lra.
  assert (Eb : 1 + 1 * ((0 - 0) * (0 - 0)) / (2 * 1 + 2) = 1) by field.
  assert (E1 : 1 * (2 + 1) / (3 / 2 * 2) = 1) by field.
  assert (Ed2 : 2 * 1 = 2) by lra.
  assert (Ed3 : 2 * (3 / 2) = 3) by lra.
  eexists; exists (grown 0 {| kappa0 := [1]; mu0 := [0]; alpha0 := [1]; beta0 := [1];
                    kappa := [1]; mu := [0]; alpha := [1]; beta := [1] |}).
  eexists.
  split; [reflexivity|]. split; [reflexivity|].
  unfold grown; simpl; unfold sq; simpl.
  rewrite Em, Eb, Ea, Ek.
  do 4 (split; [reflexivity|]).
  split; [reflexivity|].
  simpl. rewrite E2, E1, Ed2, Ed3, sqrt_1.
  split; [reflexivity|].
  repeat constructor; apply Hpos; try lra.
  apply sqrt_lt_R0; lra.
Qed.

End Exact.

(** ** binary64 *)

Section Binary64.
Context {St : Stats float}.
Import Gaussian.
Local Open Scope float_scope.

(** The scenario of [scenario_unit_priors_zero_observation] on binary64: every
    value is exact. *)
Lemma scenario_binary64 :
  exists g s,
    __init__ 1 0 1 1 = Return g /\
    update (PyFloat 0) g = (Return tt, s) /\
    kappa s = [1; 2] /\ mu s = [0; 0] /\ alpha s = [1; 1.5] /\ beta s = [1; 1] /\
    pdf (PyFloat 0) s
    = (Return [stats_t_pdf 0 2 0 (PrimFloat.sqrt 2); stats_t_pdf 0 3 0 1], s).
Proof.
  eexists; eexists. split; [reflexivity|]. split; [vm_compute; reflexivity|].
  repeat split.
Qed.

End Binary64.

(** On binary64, the priors [kappa = 2^1023], [alpha = beta = 1] are positive,
    and after [update(2.0)] the entry [beta[1]] is a NaN: the product
    [kappa * (2 - 0)**2] and the divisor [2*kappa + 2] both overflow. *)
Lemma beta_is_nan_after_overflow :
  exists g s,
    positive64 huge = true /\ positive64 1 = true /\
    Gaussian.__init__ huge 0%float 1%float 1%float = Return g /\
    Gaussian.update (PyFloat 2%float) g = (Return tt, s) /\
    Gaussian.beta s = [1%float; nan] /\
    forallb positive64 (Gaussian.beta s) = false.
Proof.
  eexists; eexists. split; [reflexivity|]. split; [reflexivity|].
  split; [reflexivity|]. split; [vm_compute; reflexivity|].
  split; vm_compute; reflexivity.
Qed.

(** On binary64, the priors [kappa = alpha = 2^-600], [beta = 1] are positive,
    and on the constructed instance the divisor [alpha * kappa] of [pdf] is
    zero: the product underflows, and the variance is infinite. *)
Lemma divisor_is_zero_after_underflow :
  exists g,
    positive64 tiny = true /\ positive64 1 = true /\
    Gaussian.__init__ tiny 0%float tiny 1%float = Return g /\
    zip_with mul (Gaussian.alpha g) (Gaussian.kappa g) = [0%float] /\
    forallb positive64 (zip_with mul (Gaussian.alpha g) (Gaussian.kappa g)) = false /\
    broadcast2 div
      (zip_with mul (Gaussian.beta g) (map (fun k => add k one) (Gaussian.kappa g)))
      (zip_with mul (Gaussian.alpha g) (Gaussian.kappa g))
    = Return [infinity].
Proof.
  eexists. split; [reflexivity|]. split; [reflexivity|].
  split; [reflexivity|].
  repeat split; vm_compute; reflexivity.
Qed.

(** On binary64, a finite observation can make an entry infinite:
    [Gaussian(1, 0, 1, 1)], [update(2^700)] gives [beta[1] = inf]. *)
Lemma beta_is_infinite_after_overflow :
  exists g s,
    Gaussian.__init__ 1%float 0%float 1%float 1%float = Return g /\
    Gaussian.update (PyFloat 0x1p+700%float) g = (Return tt, s) /\
    Gaussian.beta s = [1%float; infinity].
Proof.
  eexists; eexists. split; [reflexivity|].
  split; vm_compute; reflexivity.
Qed.

(** ** The theorems at concrete instances *)

Lemma student_kernel_positive (x df loc scale : R) :
  (0 < df)%R -> (0 < scale)%R -> (0 < student_kernel x df loc scale)%R.
Proof.
  intros _ Hs. unfold student_kernel, Rdiv.
  apply Rmult_lt_0_compat.
  - unfold Rpower. apply exp_pos.
  - now apply Rinv_0_lt_compat.
Defined.

Lemma update_prepends_prior_and_advances_witness :
  exists s',
    @Gaussian.update R R_Scalar (PyFloat 3%R)
      (@after R R_Scalar kernel_Stats [CallUpdate (PyFloat 5%R)] unit_priors)
    = (Return tt, s') /\
    nth_error (Gaussian.kappa s') 1 = Some (1 + 1)%R /\
    nth_error (Gaussian.mu s') 1 = Some ((1 * 0 + 3) / (1 + 1))%R /\
    nth_error (Gaussian.kappa s') 0 = Some 1%R.
Proof.
  destruct (@update_prepends_prior_and_advances R R_Scalar kernel_Stats
              1%R 0%R 1%R 1%R unit_priors [CallUpdate (PyFloat 5%R)] 3%R
              0 1%R 0%R 1%R 1%R
              eq_refl eq_refl eq_refl eq_refl eq_refl)
    as (s' & E & Hk & Hm & _ & _ & Zk & _).
  exists s'. repeat split; assumption.
Defined.

Lemma pdf_is_student_t_per_entry_witness :
  exists r,
    @Gaussian.pdf R R_Scalar kernel_Stats (PyFloat 0%R) unit_priors
    = (Return r, unit_priors) /\
    length r = 1 /\
    nth_error r 0
    = Some (student_kernel 0 (2 * 1) 0 (R_sqrt.sqrt (1 * (1 + 1) / (1 * 1))))%R.
Proof.
  apply (@pdf_is_student_t_per_entry R R_Scalar kernel_Stats
           1 unit_priors 0%R 0 1%R 0%R 1%R 1%R).
  - repeat split.
  - reflexivity.
  - reflexivity.
  - reflexivity.
  - reflexivity.
Defined.

Lemma scenario_unit_priors_zero_observation_witness :
  exists g s r,
    @Gaussian.update R R_Scalar (PyFloat 0%R) g = (Return tt, s) /\
    Gaussian.kappa s = [1; 2]%R /\
    @Gaussian.pdf R R_Scalar kernel_Stats (PyFloat 0%R) s = (Return r, s) /\
    Forall (Rlt 0) r.
Proof.
  destruct (@scenario_unit_priors_zero_observation kernel_Stats
              student_kernel_positive)
    as (g & s & r & _ & Eu & Ek & _ & _ & _ & Ep & _ & Hr).
  exists g, s, r. repeat split; assumption.
Defined.

(** * Further properties of [Gaussian.update] and [Gaussian.pdf] *)

(** ** Runs of calls *)

Section Runs.
Context {F : Type} `{Scalar F} `{Stats F}.
Import Gaussian.
Local Open Scope scalar_scope.

Ltac run :=
  unfold bind, getattr, setattr, eval, ret, raise; simpl.

(** [update] computes the four new arrays before it assigns any of them:
    on any 1-D attribute arrays (also of unequal lengths) and an observation
    that is a number, [None] or a string, either it raises and no attribute
    has changed, or it returns and each of the four arrays is its prior array
    followed by new entries. *)
Theorem update_all_or_nothing (o : pyobj F) (s : self F) :
  (exists e, update o s = (Raise e, s)) \/
  (exists nk nm na nb,
     update o s
     = (Return tt,
        {| kappa0 := kappa0 s; mu0 := mu0 s; alpha0 := alpha0 s; beta0 := beta0 s;
           kappa := kappa0 s ++ nk; mu := mu0 s ++ nm;
           alpha := alpha0 s ++ na; beta := beta0 s ++ nb |})).
Proof.
  unfold update; run.
  destruct (broadcast2 mul (kappa s) (mu s)) as [km|e]; simpl; [|left; eauto].
  destruct (with_observation add km o) as [kmx|e]; simpl; [|left; eauto].
  destruct (broadcast2 div kmx _) as [nm|e]; simpl; [|left; eauto].
  destruct (with_observation _ (mu s) o) as [dev|e]; simpl; [|left; eauto].
  destruct (broadcast2 mul (kappa s) _) as [kd|e]; simpl; [|left; eauto].
  destruct (broadcast2 div kd _) as [q|e]; simpl; [|left; eauto].
  destruct (broadcast2 add (beta s) q) as [nb|e]; simpl; [|left; eauto].
  right. do 4 eexists. reflexivity.
Qed.

Lemma after_numeric_updates_only k m a b n (s : self F) cs :
  tracking k m a b n s ->
  after cs s = after (filter is_numeric_update cs) s.
Proof.
  unfold after. revert n s.
  induction cs as [|c cs IH]; intros n s T; simpl; trivial.
  destruct (is_numeric_update c) eqn:Ec; simpl.
  - destruct c as [o|[x| |str]]; try discriminate.
    rewrite (perform_numeric_update x (tracking_aligned T)).
    apply (IH (S n)). now apply tracking_grown.
  - rewrite (perform_other c (tracking_aligned T) Ec). now apply (IH n).
Qed.

(** Calls that raise, and [pdf] calls, leave no trace: for a run of calls
    whose observations are numbers, [None] or strings, the attributes after
    the run on a constructed instance are those after the run's updates with
    a number alone, in the same order. *)
Theorem run_is_its_numeric_updates (k m a b : F) (cs : list call) :
  exists g,
    __init__ k m a b = Return g /\
    after cs g = after (filter is_numeric_update cs) g.
Proof.
  destruct (__init__ k m a b) as [g|e] eqn:E; [|discriminate].
  exists g. split; trivial.
  exact (after_numeric_updates_only cs (tracking_constructed E)).
Qed.

(** *** [kappa] and [alpha] do not look at the observations *)

Lemma seq_from_zero n : seq 0 (S n) = 0 :: map S (seq 0 n).
Proof. simpl. now rewrite seq_shift. Qed.

Lemma counted_grown k m a b n (s : self F) x :
  tracking k m a b n s /\
  kappa s = map (fun i => Nat.iter i next_kappa k) (seq 0 n) /\
  alpha s = map (fun i => Nat.iter i next_alpha a) (seq 0 n) ->
  tracking k m a b (S n) (grown x s) /\
  kappa (grown x s) = map (fun i => Nat.iter i next_kappa k) (seq 0 (S n)) /\
  alpha (grown x s) = map (fun i => Nat.iter i next_alpha a) (seq 0 (S n)).
Proof.
  intros (T & Ek & Ea).
  pose proof T as ((Pk & _ & Pa & _) & _).
  split; [now apply tracking_grown|].
  rewrite seq_from_zero. simpl. rewrite Pk, Pa, Ek, Ea, !map_map. now split.
Qed.

Lemma counted_after k m a b (g : self F) cs :
  __init__ k m a b = Return g ->
  kappa (after cs g)
  = map (fun i => Nat.iter i next_kappa k) (seq 0 (S (updates_done cs))) /\
  alpha (after cs g)
  = map (fun i => Nat.iter i next_alpha a) (seq 0 (S (updates_done cs))).
Proof.
  intros E.
  refine (proj2 (after_invariant
            (fun n s => tracking k m a b n s /\
               kappa s = map (fun i => Nat.iter i next_kappa k) (seq 0 n) /\
               alpha s = map (fun i => Nat.iter i next_alpha a) (seq 0 n))
            _ _ cs 1 g _)).
  - intros n s (T & _). exact (tracking_aligned T).
  - intros n s x. apply counted_grown.
  - split; [now apply tracking_constructed|]. injection E as <-. now split.
Qed.

(** Two runs of calls on the same constructed instance in which as many
    updates with a number were made leave the same [kappa] and the same
    [alpha], whatever the observations were: entry [i] is the prior with
    [+ 1], respectively [+ 0.5], applied [i] times. *)
Theorem kappa_alpha_count_updates_only
    (k m a b : F) (g : self F) (cs cs' : list call) :
  __init__ k m a b = Return g ->
  updates_done cs = updates_done cs' ->
  kappa (after cs g) = kappa (after cs' g) /\
  alpha (after cs g) = alpha (after cs' g) /\
  kappa (after cs g)
  = map (fun i => Nat.iter i (fun v => v + one) k) (seq 0 (S (updates_done cs))) /\
  alpha (after cs g)
  = map (fun i => Nat.iter i (fun v => v + half) a) (seq 0 (S (updates_done cs))).
Proof.
  intros E Hn.
  destruct (counted_after cs E) as (Ek & Ea).
  destruct (counted_after cs' E) as (Ek' & Ea').
  rewrite <- Hn in Ek', Ea'.
  repeat split; try congruence; assumption.
Qed.

End Runs.

(** ** The further properties at concrete instances *)

Lemma kappa_alpha_count_updates_only_witness :
  Gaussian.kappa
    (@after R R_Scalar kernel_Stats [CallUpdate (PyFloat 5%R)] unit_priors)
  = Gaussian.kappa
      (@after R R_Scalar kernel_Stats
         [CallPdf PyNone; CallUpdate (PyFloat 7%R)] unit_priors).
Proof.
  exact (proj1 (@kappa_alpha_count_updates_only R R_Scalar kernel_Stats
                  1%R 0%R 1%R 1%R unit_priors
                  [CallUpdate (PyFloat 5%R)]
                  [CallPdf PyNone; CallUpdate (PyFloat 7%R)]
                  eq_refl eq_refl)).
Defined.

(** * Signs under binary64 rounding *)

Unset Implicit Arguments.

(** ** Rounding keeps the sign *)

Section Rounding.
Variables prec emax : Z.
Local Open Scope Z_scope.
Hypothesis prec_pos : 0 < prec.

Lemma shr_1_nonneg mrs : 0 <= shr_m mrs -> 0 <= shr_m (shr_1 mrs).
Proof.
  destruct mrs as [m r s]. simpl.
  destruct m as [|[p|p|]|p]; simpl; lia.
Qed.

Lemma iter_shr_1_nonneg p : forall mrs,
  0 <= shr_m mrs -> 0 <= shr_m (iter_pos shr_1 p mrs).
Proof.
  induction p as [p IH|p IH|]; intros mrs Hm; simpl.
  - apply IH, IH, shr_1_nonneg, Hm.
  - apply IH, IH, Hm.
  - apply shr_1_nonneg, Hm.
Qed.

Lemma shr_record_of_loc_m m l : shr_m (shr_record_of_loc m l) = m.
Proof. destruct l as [|[]]; reflexivity. Qed.

Lemma shr_fexp_nonneg m e l :
  0 <= m -> 0 <= shr_m (fst (shr_fexp prec emax m e l)).
Proof.
  intros Hm. unfold shr_fexp, shr.
  destruct (SpecFloat.fexp prec emax (Zdigits2 m + e) - e); simpl;
    try (rewrite shr_record_of_loc_m; exact Hm).
  apply iter_shr_1_nonneg. now rewrite shr_record_of_loc_m.
Qed.

Lemma round_nearest_even_ge m l : m <= round_nearest_even m l.
Proof.
  destruct l as [|[]]; simpl; try lia.
  destruct (Z.even m); lia.
Qed.

(** Rounding a non-negative mantissa gives a zero, a finite number or an
    infinity of the sign asked for. *)
Lemma binary_round_aux_nonneg sx mx ex lx :
  0 <= mx ->
  match binary_round_aux prec emax sx mx ex lx with
  | S754_zero s | S754_finite s _ _ | S754_infinity s => s = sx
  | S754_nan => False
  end.
Proof.
  intros Hm. unfold binary_round_aux.
  destruct (shr_fexp prec emax mx ex lx) as [mrs' e'] eqn:E1.
  pose proof (shr_fexp_nonneg mx ex lx Hm) as H1. rewrite E1 in H1. simpl in H1.
  pose proof (round_nearest_even_ge (shr_m mrs') (loc_of_shr_record mrs')) as H2.
  set (m2 := round_nearest_even (shr_m mrs') (loc_of_shr_record mrs')) in *.
  destruct (shr_fexp prec emax m2 e' loc_Exact) as [mrs'' e''] eqn:E2.
  pose proof (shr_fexp_nonneg m2 e' loc_Exact ltac:(lia)) as H3.
  rewrite E2 in H3. simpl in H3.
  destruct (shr_m mrs'') as [|q|q]; trivial; [|lia].
  destruct (e'' <=? emax - prec); reflexivity.
Qed.

(** Shifting by fewer bits than the mantissa has leaves a positive mantissa. *)
Lemma shr_1_digits mrs q :
  shr_m mrs = Zpos q -> 1 < Zpos (digits2_pos q) ->
  exists q', shr_m (shr_1 mrs) = Zpos q' /\
             Zpos (digits2_pos q') = Zpos (digits2_pos q) - 1.
Proof.
  destruct mrs as [m r s]. cbn [shr_m]. intros -> Hd.
  destruct q as [q|q|]; cbn [shr_1 shr_m digits2_pos] in *;
    rewrite ?Pos2Z.inj_succ in *; try lia; exists q; split; trivial; lia.
Qed.

Lemma iter_shr_1_digits p : forall mrs q,
  shr_m mrs = Zpos q -> Zpos p < Zpos (digits2_pos q) ->
  exists q', shr_m (iter_pos shr_1 p mrs) = Zpos q' /\
             Zpos (digits2_pos q') = Zpos (digits2_pos q) - Zpos p.
Proof.
  induction p as [p IH|p IH|]; intros mrs q Hm Hd; cbn [iter_pos];
    [rewrite (Pos2Z.inj_xI p) in *|rewrite (Pos2Z.inj_xO p) in *|].
  - destruct (shr_1_digits mrs q Hm) as (q1 & H1 & D1); [lia|].
    destruct (IH _ _ H1) as (q2 & H2 & D2); [lia|].
    destruct (IH _ _ H2) as (q3 & H3 & D3); [lia|].
    exists q3. split; trivial. lia.
  - destruct (IH _ _ Hm) as (q2 & H2 & D2); [lia|].
    destruct (IH _ _ H2) as (q3 & H3 & D3); [lia|].
    exists q3. split; trivial. lia.
  - apply shr_1_digits; trivial.
Qed.

Lemma emin_le_fexp e : SpecFloat.emin prec emax <= SpecFloat.fexp prec emax e.
Proof. unfold SpecFloat.fexp. lia. Qed.

Lemma shr_fexp_pos q e l :
  SpecFloat.emin prec emax <= e ->
  exists q' , shr_m (fst (shr_fexp prec emax (Zpos q) e l)) = Zpos q' /\
              SpecFloat.emin prec emax <= snd (shr_fexp prec emax (Zpos q) e l).
Proof.
  intros He. unfold shr_fexp, shr. simpl Zdigits2.
  destruct (SpecFloat.fexp prec emax (Zpos (digits2_pos q) + e) - e) as [|n|n] eqn:En; simpl;
    try (rewrite shr_record_of_loc_m; eauto).
  destruct (iter_shr_1_digits n (shr_record_of_loc (Zpos q) l) q) as (q' & H1 & _).
  - apply shr_record_of_loc_m.
  - unfold SpecFloat.fexp in En. lia.
  - exists q'. split; trivial. lia.
Qed.

(** Rounding a positive mantissa whose exponent is not below [emin] gives a
    finite number or an infinity, never a zero. *)
Lemma binary_round_aux_pos sx q ex lx :
  SpecFloat.emin prec emax <= ex ->
  match binary_round_aux prec emax sx (Zpos q) ex lx with
  | S754_finite s _ _ | S754_infinity s => s = sx
  | _ => False
  end.
Proof.
  intros He. unfold binary_round_aux.
  destruct (shr_fexp_pos q ex lx He) as (q1 & H1 & He1).
  destruct (shr_fexp prec emax (Zpos q) ex lx) as [mrs' e'] eqn:E1.
  simpl in H1, He1.
  pose proof (round_nearest_even_ge (shr_m mrs') (loc_of_shr_record mrs')) as H2.
  destruct (round_nearest_even (shr_m mrs') (loc_of_shr_record mrs'))
    as [|q2|q2] eqn:E2; try lia.
  destruct (shr_fexp_pos q2 e' loc_Exact He1) as (q3 & H3 & _).
  destruct (shr_fexp prec emax (Zpos q2) e' loc_Exact) as [mrs'' e''] eqn:E3.
  simpl in H3. rewrite H3.
  destruct (e'' <=? emax - prec); reflexivity.
Qed.

Lemma signed_nonneg r sx :
  match r with
  | S754_zero s | S754_finite s _ _ | S754_infinity s => s = sx
  | S754_nan => False
  end ->
  sx = false -> sf_nonneg r = true.
Proof. destruct r as [s|s| |s m e]; intros H E; try contradiction; now subst. Qed.

Lemma signed_pos r sx :
  match r with
  | S754_finite s _ _ | S754_infinity s => s = sx
  | _ => False
  end ->
  sx = false -> sf_pos r = true.
Proof. destruct r as [s|s| |s m e]; intros H E; try contradiction; now subst. Qed.

Lemma sf_pos_nonneg f : sf_pos f = true -> sf_nonneg f = true.
Proof. destruct f as [[]|[]| |[] m e]; trivial. Qed.

Lemma sf_nonneg_or_nan_of_nonneg f : sf_nonneg f = true -> sf_nonneg_or_nan f = true.
Proof. destruct f as [[]|[]| |[] m e]; trivial. Qed.

Lemma sf_nonneg_or_nan_cases f :
  sf_nonneg_or_nan f = true -> f = S754_nan \/ sf_nonneg f = true.
Proof. destruct f as [[]|[]| |[] m e]; auto. Qed.

(** *** Multiplication *)

Lemma SFmul_nonneg_or_nan x y :
  sf_nonneg_or_nan x = true -> sf_nonneg_or_nan y = true ->
  sf_nonneg_or_nan (SFmul prec emax x y) = true.
Proof.
  destruct x as [[]|[]| |[] mx ex]; destruct y as [[]|[]| |[] my ey];
    try discriminate; intros _ _; trivial.
  cbn [SFmul xorb]. apply sf_nonneg_or_nan_of_nonneg.
  apply (signed_nonneg _ false); trivial.
  apply binary_round_aux_nonneg. apply Pos2Z.is_nonneg.
Qed.

Lemma SFmul_pos x y :
  sf_pos x = true -> sf_pos y = true -> sf_nonneg (SFmul prec emax x y) = true.
Proof.
  destruct x as [[]|[]| |[] mx ex]; destruct y as [[]|[]| |[] my ey];
    try discriminate; intros _ _; trivial.
  cbn [SFmul xorb]. apply (signed_nonneg _ false); trivial.
  apply binary_round_aux_nonneg. apply Pos2Z.is_nonneg.
Qed.

Lemma SFmul_square x : sf_nonneg_or_nan (SFmul prec emax x x) = true.
Proof.
  destruct x as [[]|[]| |s mx ex]; trivial.
  cbn [SFmul]. rewrite xorb_nilpotent. apply sf_nonneg_or_nan_of_nonneg.
  apply (signed_nonneg _ false); trivial.
  apply binary_round_aux_nonneg. apply Pos2Z.is_nonneg.
Qed.

(** *** Division *)

Lemma SFdiv_core_binary_nonneg mx ex my ey :
  0 <= fst (fst (SFdiv_core_binary prec emax (Zpos mx) ex (Zpos my) ey)).
Proof.
  unfold SFdiv_core_binary.
  set (s := _ - _ - _).
  set (m' := match s with Z0 => Zpos mx | Zpos _ => Z.shiftl (Zpos mx) s | Zneg _ => 0 end).
  assert (Hm : 0 <= m').
  { unfold m'. destruct s; try lia. apply Z.shiftl_nonneg. lia. }
  pose proof (Z.div_pos m' (Zpos my) Hm ltac:(lia)) as Hq.
  unfold Z.div in Hq.
  destruct (Z.div_eucl m' (Zpos my)) as [q r]. exact Hq.
Qed.

Lemma SFdiv_nonneg_or_nan x y :
  sf_nonneg_or_nan x = true -> sf_nonneg_or_nan y = true ->
  sf_nonneg_or_nan (SFdiv prec emax x y) = true.
Proof.
  destruct x as [[]|[]| |[] mx ex]; destruct y as [[]|[]| |[] my ey];
    try discriminate; intros _ _; trivial.
  cbn [SFdiv xorb].
  pose proof (SFdiv_core_binary_nonneg mx ex my ey) as Hq.
  destruct (SFdiv_core_binary prec emax (Zpos mx) ex (Zpos my) ey) as [[mz ez] lz].
  simpl in Hq. apply sf_nonneg_or_nan_of_nonneg.
  apply (signed_nonneg _ false); trivial.
  now apply binary_round_aux_nonneg.
Qed.

(** *** Addition *)

Lemma valid_emin s m e :
  SpecFloat.valid_binary prec emax (S754_finite s m e) = true -> SpecFloat.emin prec emax <= e.
Proof.
  cbn [SpecFloat.valid_binary]. unfold bounded, canonical_mantissa.
  intros H. apply andb_prop in H. destruct H as (H & _).
  apply Z.eqb_eq in H. rewrite <- H. apply emin_le_fexp.
Qed.

Lemma binary_round_nonneg m e :
  sf_nonneg (binary_round prec emax false m e) = true.
Proof.
  unfold binary_round. destruct (shl_align m e _) as [mz ez].
  apply (signed_nonneg _ false); trivial.
  apply binary_round_aux_nonneg. apply Pos2Z.is_nonneg.
Qed.

Lemma binary_round_pos m e :
  SpecFloat.emin prec emax <= e ->
  sf_pos (binary_round prec emax false m e) = true.
Proof.
  intros He. unfold binary_round.
  destruct (shl_align m e _) as [mz ez] eqn:E.
  apply (signed_pos _ false); trivial.
  apply binary_round_aux_pos.
  unfold shl_align in E.
  destruct (_ - e) eqn:D; injection E as <- <-; trivial.
  apply emin_le_fexp.
Qed.

Lemma SFadd_nonneg_or_nan x y :
  sf_nonneg_or_nan x = true -> sf_nonneg_or_nan y = true ->
  sf_nonneg_or_nan (SFadd prec emax x y) = true.
Proof.
  destruct x as [[]|[]| |[] mx ex]; destruct y as [[]|[]| |[] my ey];
    try discriminate; intros _ _; trivial.
  cbn [SFadd cond_Zopp]. apply sf_nonneg_or_nan_of_nonneg.
  apply binary_round_nonneg.
Qed.

(** The sum of a positive and a non-negative number is positive: it is
    neither a zero nor a NaN. *)
Lemma SFadd_pos x y :
  SpecFloat.valid_binary prec emax x = true -> SpecFloat.valid_binary prec emax y = true ->
  sf_nonneg x = true -> sf_nonneg y = true ->
  sf_pos x = true \/ sf_pos y = true ->
  sf_pos (SFadd prec emax x y) = true.
Proof.
  destruct x as [[]|[]| |[] mx ex]; destruct y as [[]|[]| |[] my ey];
    try discriminate; intros Vx Vy _ _ [P|P]; try discriminate; trivial.
  all: cbn [SFadd cond_Zopp]; apply binary_round_pos;
    pose proof (valid_emin _ _ _ Vx); pose proof (valid_emin _ _ _ Vy); lia.
Qed.

(** *** Square root *)



End Rounding.


(** ** The primitive operators *)

Section Signs64.
Local Open Scope float_scope.

Lemma prec64_pos : (0 < FloatOps.prec)%Z.
Proof. reflexivity. Qed.

Lemma positive64_spec v : positive64 v = sf_pos (Prim2SF v).
Proof.
  unfold positive64. rewrite ltb_spec.
  change (Prim2SF 0) with (S754_zero false).
  destruct (Prim2SF v) as [[]|[]| |[] m e]; reflexivity.
Qed.

Lemma SFeqb_refl f : f <> S754_nan -> SFeqb f f = true.
Proof.
  destruct f as [[]|[]| |[] m e]; intros H; try reflexivity; try (now elim H);
    unfold SFeqb, SFcompare; rewrite Z.compare_refl, Pos.compare_cont_refl;
    reflexivity.
Qed.

Lemma is_nan_spec v : is_nan v = true <-> Prim2SF v = S754_nan.
Proof.
  unfold is_nan. rewrite eqb_spec. split.
  - intros H. destruct (Prim2SF v) as [s|s| |s m e] eqn:E; trivial;
      rewrite SFeqb_refl in H; discriminate.
  - intros ->. reflexivity.
Qed.

Lemma positive_or_nan64_spec v :
  positive_or_nan64 v = true <-> sf_pos (Prim2SF v) = true \/ Prim2SF v = S754_nan.
Proof.
  unfold positive_or_nan64. rewrite orb_true_iff, positive64_spec, is_nan_spec.
  reflexivity.
Qed.

Lemma nonnegative64_intro v : sf_nonneg (Prim2SF v) = true -> nonnegative64 v = true.
Proof.
  unfold nonnegative64. rewrite leb_spec.
  change (Prim2SF 0) with (S754_zero false).
  destruct (Prim2SF v) as [[]|[]| |[] m e]; try discriminate; reflexivity.
Qed.

Lemma add_positive64 (x y : float) :
  positive64 x = true -> positive64 y = true -> positive64 (x + y) = true.
Proof.
  rewrite !positive64_spec, add_spec. intros Hx Hy.
  apply (SFadd_pos _ _ prec64_pos); auto using Prim2SF_valid, sf_pos_nonneg.
Qed.

Lemma mul_positive64 (x y : float) :
  positive64 x = true -> positive64 y = true -> nonnegative64 (x * y) = true.
Proof.
  rewrite !positive64_spec. intros Hx Hy. apply nonnegative64_intro.
  rewrite mul_spec. now apply SFmul_pos.
Qed.

(** [2*k + 2] *)
Lemma twice_plus_two_positive64 (k : float) :
  positive64 k = true -> positive64 (2 * k + 2) = true.
Proof.
  rewrite !positive64_spec, add_spec, mul_spec. intros Hk.
  apply (SFadd_pos _ _ prec64_pos); try apply Prim2SF_valid.
  - change SF64mul with (SFmul FloatOps.prec emax). rewrite <- mul_spec. apply Prim2SF_valid.
  - now apply SFmul_pos.
  - reflexivity.
  - right; reflexivity.
Qed.

(** [b + (k * (d*d)) / (2*k + 2)] *)
Lemma beta_step_positive_or_nan64 (b k d : float) :
  positive64 k = true -> positive_or_nan64 b = true ->
  positive_or_nan64 (b + (k * (d * d)) / (2 * k + 2)) = true.
Proof.
  rewrite positive64_spec, !positive_or_nan64_spec. intros Hk Hb.
  set (q := ((k * (d * d)) / (2 * k + 2))%float).
  assert (Hq : sf_nonneg_or_nan (Prim2SF q) = true).
  { unfold q. rewrite div_spec, add_spec, !mul_spec.
    apply SFdiv_nonneg_or_nan.
    - apply SFmul_nonneg_or_nan; [now apply sf_nonneg_or_nan_of_nonneg, sf_pos_nonneg|].
      apply SFmul_square.
    - apply SFadd_nonneg_or_nan; [|reflexivity].
      apply SFmul_nonneg_or_nan; [reflexivity|].
      now apply sf_nonneg_or_nan_of_nonneg, sf_pos_nonneg. }
  rewrite add_spec.
  destruct Hb as [Hb|Hb]; [|right; rewrite Hb; reflexivity].
  destruct (sf_nonneg_or_nan_cases _ Hq) as [Hn|Hn].
  - right. rewrite Hn. destruct (Prim2SF b); reflexivity.
  - left. apply (SFadd_pos _ _ prec64_pos); auto using Prim2SF_valid, sf_pos_nonneg.
Qed.



End Signs64.

Set Implicit Arguments.

(** * Signs of the hyperparameters *)

Section Entries.
Context {F : Type} `{Scalar F} `{Stats F}.
Import Gaussian.

(** Properties of the [kappa], [alpha] and [beta] entries that the priors
    have and one step of [update] keeps hold of every entry after any run of
    calls. *)
Lemma entries_after (Pk Pa Pb : F -> Prop) :
  (forall k, Pk k -> Pk (next_kappa k)) ->
  (forall a, Pa a -> Pa (next_alpha a)) ->
  (forall x k m b, Pk k -> Pb b -> Pb (next_beta x k m b)) ->
  forall (k m a b : F) (g : self F) (cs : list call),
    Pk k -> Pa a -> Pb b ->
    __init__ k m a b = Return g ->
    Forall Pk (kappa (after cs g)) /\
    Forall Pa (alpha (after cs g)) /\
    Forall Pb (beta (after cs g)).
Proof.
  intros Sk Sa Sb k m a b g cs Hk Ha Hb E.
  refine (proj2 (after_invariant
            (fun n s => tracking k m a b n s /\
               Forall Pk (kappa s) /\ Forall Pa (alpha s) /\ Forall Pb (beta s))
            _ _ cs 1 g _)).
  - intros n s (T & _). exact (tracking_aligned T).
  - intros n s x (T & Fk & Fa & Fb).
    pose proof T as ((Qk & Qm & Qa & Qb) & (Ek & Em & Ea & Eb) & _).
    pose proof (tracking_grown x T) as T'.
    split; trivial. repeat split.
    + simpl. rewrite Qk. constructor; trivial.
      apply Forall_map. revert Fk. apply Forall_impl. exact Sk.
    + simpl. rewrite Qa. constructor; trivial.
      apply Forall_map. revert Fa. apply Forall_impl. exact Sa.
    + apply Forall_by_index. intros [|i] v Hv.
      * destruct T' as (_ & _ & _ & _ & _ & Zb).
        assert (v = b) by congruence. now subst.
      * assert (Hi : i < n).
        { assert (nth_error (beta (grown x s)) (S i) <> None) as Hn by congruence.
          apply nth_error_Some in Hn.
          destruct (tracking_aligned T') as (_ & _ & _ & Eb'). lia. }
        destruct (@nth_error_defined _ (kappa s) i) as (ki & Hki); [lia|].
        destruct (@nth_error_defined _ (mu s) i) as (mi & Hmi); [lia|].
        destruct (@nth_error_defined _ (beta s) i) as (bi & Hbi); [lia|].
        rewrite (grown_beta s x i Qb Hki Hmi Hbi) in Hv. injection Hv as <-.
        apply Sb.
        -- exact (@Forall_at F Pk (kappa s) i ki Fk Hki).
        -- exact (@Forall_at F Pb (beta s) i bi Fb Hbi).
  - split; [now apply tracking_constructed|]. injection E as <-. simpl.
    repeat split; repeat constructor; trivial.
Qed.

Lemma forallb_of_Forall (p : F -> bool) (l : list F) :
  Forall (fun v => p v = true) l -> forallb p l = true.
Proof.
  intros Hl. apply forallb_forall. intros v Hv.
  rewrite Forall_forall in Hl. now apply Hl.
Qed.

End Entries.

Section Positive64.
Context {St : Stats float}.
Import Gaussian.
Local Open Scope float_scope.

Lemma next_kappa_positive64 (k : float) :
  positive64 k = true -> positive64 (next_kappa k) = true.
Proof. intros Hk. now apply (add_positive64 k 1). Qed.

Lemma next_alpha_positive64 (a : float) :
  positive64 a = true -> positive64 (next_alpha a) = true.
Proof. intros Ha. now apply (add_positive64 a 0.5). Qed.

Lemma next_beta_positive_or_nan64 (x k m b : float) :
  positive64 k = true -> positive_or_nan64 b = true ->
  positive_or_nan64 (next_beta x k m b) = true.
Proof. intros Hk Hb. exact (beta_step_positive_or_nan64 b k (x - m) Hk Hb). Qed.

(** C5, as binary64 has it.  For float priors [kappa > 0], [alpha > 0],
    [beta > 0] and after any run of calls, with any float observations (also
    infinite ones and NaN): every entry of [kappa] and every entry of [alpha]
    is strictly positive, and every entry of [beta] is strictly positive or
    a NaN. *)
Theorem kappa_alpha_positive_beta_positive_or_nan
    (k m a b : float) (g : self float) (cs : list call) :
  positive64 k = true -> positive64 a = true -> positive64 b = true ->
  __init__ k m a b = Return g ->
  forallb positive64 (kappa (after cs g)) = true /\
  forallb positive64 (alpha (after cs g)) = true /\
  forallb positive_or_nan64 (beta (after cs g)) = true.
Proof.
  intros Hk Ha Hb E.
  assert (Hb' : positive_or_nan64 b = true).
  { unfold positive_or_nan64. now rewrite Hb. }
  destruct (entries_after
              (fun v => positive64 v = true) (fun v => positive64 v = true)
              (fun v => positive_or_nan64 v = true)
              next_kappa_positive64 next_alpha_positive64
              next_beta_positive_or_nan64 cs Hk Ha Hb' E)
    as (Fk & Fa & Fb).
  repeat split; now apply forallb_of_Forall.
Qed.

(** C10, as binary64 has it.  For float priors [kappa > 0], [alpha > 0], in
    every state a run of calls reaches: the divisors [kappa + 1] and
    [2*kappa + 2] have only strictly positive entries; the divisor
    [alpha*kappa] has only non-negative entries, none a NaN (an entry can be
    zero, when the product underflows); and [update] and [pdf] called with
    any float return. *)
Theorem divisors_signs_and_calls_return
    (k m a b : float) (g : self float) (cs : list call) (x : float) :
  positive64 k = true -> positive64 a = true ->
  __init__ k m a b = Return g ->
  forallb positive64 (map (fun k => k + 1) (kappa (after cs g))) = true /\
  forallb positive64
    (map (fun k => k + 2) (map (fun k => 2 * k) (kappa (after cs g)))) = true /\
  forallb nonnegative64
    (zip_with PrimFloat.mul (alpha (after cs g)) (kappa (after cs g))) = true /\
  (exists s', update (PyFloat x) (after cs g) = (Return tt, s')) /\
  (exists r, pdf (PyFloat x) (after cs g) = (Return r, after cs g)).
Proof.
  intros Hk Ha E.
  destruct (entries_after
              (fun v => positive64 v = true) (fun v => positive64 v = true)
              (fun _ => True)
              next_kappa_positive64 next_alpha_positive64
              (fun _ _ _ _ _ _ => I) cs Hk Ha I E)
    as (Fk & Fa & _).
  pose proof (tracking_aligned (tracking_after cs E)) as A.
  split; [|split; [|split; [|split]]].
  - apply forallb_of_Forall, Forall_map. revert Fk. apply Forall_impl.
    intros v Hv. now apply (add_positive64 v 1).
  - apply forallb_of_Forall. rewrite map_map. apply Forall_map.
    revert Fk. apply Forall_impl. exact twice_plus_two_positive64.
  - apply forallb_of_Forall, Forall_by_index. intros i v Hv.
    destruct (nth_error_zip_with_inv _ _ _ _ Hv) as (ai & ki & Hai & Hki & ->).
    apply mul_positive64.
    + exact (@Forall_at float _ _ i ai Fa Hai).
    + exact (@Forall_at float _ _ i ki Fk Hki).
  - exists (grown x (after cs g)). exact (update_numeric x A).
  - exists (densities x (after cs g)). exact (pdf_numeric x A).
Qed.


End Positive64.

Lemma kappa_alpha_positive_beta_positive_or_nan_witness :
  forallb positive64
    (Gaussian.kappa
       (@after float float_Scalar kernel64_Stats
          [CallUpdate (PyFloat 5%float)]
          {| Gaussian.kappa0 := [1%float]; Gaussian.mu0 := [0%float];
             Gaussian.alpha0 := [1%float]; Gaussian.beta0 := [1%float];
             Gaussian.kappa := [1%float]; Gaussian.mu := [0%float];
             Gaussian.alpha := [1%float]; Gaussian.beta := [1%float] |})) = true.
Proof.
  exact (proj1 (@kappa_alpha_positive_beta_positive_or_nan kernel64_Stats
                  1%float 0%float 1%float 1%float _
                  [CallUpdate (PyFloat 5%float)]
                  eq_refl eq_refl eq_refl eq_refl)).
Defined.

Lemma divisors_signs_and_calls_return_witness :
  forallb nonnegative64
    (zip_with PrimFloat.mul
       (Gaussian.alpha
          (@after float float_Scalar kernel64_Stats
             [CallUpdate (PyFloat 5%float)]
             {| Gaussian.kappa0 := [1%float]; Gaussian.mu0 := [0%float];
                Gaussian.alpha0 := [1%float]; Gaussian.beta0 := [1%float];
                Gaussian.kappa := [1%float]; Gaussian.mu := [0%float];
                Gaussian.alpha := [1%float]; Gaussian.beta := [1%float] |}))
       (Gaussian.kappa
          (@after float float_Scalar kernel64_Stats
             [CallUpdate (PyFloat 5%float)]
             {| Gaussian.kappa0 := [1%float]; Gaussian.mu0 := [0%float];
                Gaussian.alpha0 := [1%float]; Gaussian.beta0 := [1%float];
                Gaussian.kappa := [1%float]; Gaussian.mu := [0%float];
                Gaussian.alpha := [1%float]; Gaussian.beta := [1%float] |}))) = true.
Proof.
  exact (proj1 (proj2 (proj2
           (@divisors_signs_and_calls_return kernel64_Stats
              1%float 0%float 1%float 1%float _
              [CallUpdate (PyFloat 5%float)] 3%float
              eq_refl eq_refl eq_refl)))).
Defined.


(** * Arguments that are not checked *)

Section Unchecked.
Context {F : Type} `{Scalar F} `{Stats F}.
Import Gaussian.





End Unchecked.

